(** * A resilient API client and analysis orchestrator: model and properties

    Shallow embedding of
      - [improved_architecture/utils/rate_limiter.py]   (RateLimiter)
      - [improved_architecture/utils/cache.py]          (CacheManager)
      - [improved_architecture/services/api_service.py] (UnusualWhalesAPIService)
      - [improved_architecture/controllers/main_controller.py] (MainController)

    Conventions.  Clock readings ([time.monotonic()], [time.time()]) and
    the float fields of the program are exact rationals [Q]; Python [int]s
    are [Z]; [str] is [string]; a [dict] used as a map is a [gmap]; the
    coroutines are run between two suspension points as one atomic step,
    which is how the asyncio event loop runs them. *)

From Stdlib Require Import ZArith QArith Qround Qminmax Lqa Lia.
From Stdlib Require Import String Ascii List Bool.
From Stdlib Require Import DecimalString.
From stdpp Require Import base option list gmap strings fin_maps.

Import ListNotations.

(* ===================================================================== *)
(** ** RateLimiter ([utils/rate_limiter.py]) *)
(* ===================================================================== *)

Module RateLimiter.

Local Open Scope Q_scope.

(** The two data attributes of the object; the lock only serialises the
    callers, so a history of [acquire] calls is a sequence. *)
Record t : Type := mk {
  min_interval : Q;
  _last : Q                       (* [self._last] *)
}.

(** [__init__]: [1.0 / rate_per_second if rate_per_second > 0 else 0]. *)
Definition init (rate_per_second : Q) : t :=
  {| min_interval := if Qlt_le_dec 0 rate_per_second
                     then 1 / rate_per_second else 0;
     _last := 0 |}.

(** [wait = self.min_interval - (now - self._last)]. *)
Definition wait_of (rl : t) (now : Q) : Q :=
  min_interval rl - (now - _last rl).

(** The time spent in [asyncio.sleep]: [wait] if [wait > 0], nothing
    otherwise. *)
Definition slept_of (rl : t) (now : Q) : Q :=
  if Qlt_le_dec 0 (wait_of rl now) then wait_of rl now else 0.

(** One [acquire].  [now] is the first clock reading; [lag] is the time
    by which the second reading [time.monotonic()] is later than
    [now + slept] (scheduling delay; the clock never runs backwards).
    Returns the limiter with the committed dispatch time and the time
    slept. *)
Definition acquire (rl : t) (now lag : Q) : t * Q :=
  let slept := slept_of rl now in
  ({| min_interval := min_interval rl; _last := now + slept + lag |}, slept).






End RateLimiter.

(* ===================================================================== *)
(** ** Python values, strings and exceptions *)
(* ===================================================================== *)

Module Py.

(** What [response.json()] can return, and what the cache stores.
    [VNone] is Python's [None], which is also how ``absent'' is
    represented by [Optional] results. *)
#[warnings="-register-all"]
Inductive value : Type :=
  | VNone
  | VBool (b : bool)
  | VInt (z : Z)
  | VFloat (q : Q)
  | VStr (s : string)
  | VList (l : list value)
  | VDict (d : list (string * value)).

(** Truth value testing, as [if x:] and [x and y] do it. *)
Definition truthy (v : value) : bool :=
  match v with
  | VNone => false
  | VBool b => b
  | VInt z => negb (z =? 0)%Z
  | VFloat q => negb (Qeq_bool q 0)
  | VStr s => negb (String.eqb s "")
  | VList l => match l with [] => false | _ => true end
  | VDict d => match d with [] => false | _ => true end
  end.

(** The exception classes the service distinguishes, each with the text
    [str(e)] gives. *)
Inductive exn : Type :=
  | TimeoutError                         (* asyncio.TimeoutError *)
  | ClientError (msg : string)           (* aiohttp.ClientError *)
  | JSONDecodeError (msg : string)       (* json.JSONDecodeError *)
  | ApplicationError (msg : string)      (* the controller's own error *)
  | OtherException (msg : string).       (* any other Exception *)

Definition str_exn (e : exn) : string :=
  match e with
  | TimeoutError => ""
  | ClientError m | JSONDecodeError m | ApplicationError m
  | OtherException m => m
  end.

(** [str(n)] for an [int]. *)
Definition str_int (n : Z) : string := NilZero.string_of_int (Z.to_int n).

(** [int(x)] for a float: truncation towards zero. *)
Definition int_of (x : Q) : Z := Z.quot (Qnum x) (Z.pos (Qden x)).

(** [c.upper()] on ASCII letters, and [s.upper()]. *)
Definition upper_ascii (c : ascii) : ascii :=
  let n := nat_of_ascii c in
  if (97 <=? n)%nat && (n <=? 122)%nat then ascii_of_nat (n - 32) else c.

Fixpoint upper (s : string) : string :=
  match s with
  | EmptyString => EmptyString
  | String c r => String (upper_ascii c) (upper r)
  end.

(** [sep.join(parts)]. *)
Fixpoint join (sep : string) (parts : list string) : string :=
  match parts with
  | [] => ""
  | [p] => p
  | p :: rest => p +:+ sep +:+ join sep rest
  end.

(** [f"{x}"] for an [Optional[str]]. *)
Definition str_opt (o : option string) : string :=
  match o with Some s => s | None => "None" end.

(** What an [await] can do to the coroutine that runs it: hand back a
    value, raise an [Exception], or raise [asyncio.CancelledError] (which
    is not an [Exception]) because the task was cancelled while
    suspended there. *)
Inductive outcome (A : Type) : Type :=
  | Ret (a : A)
  | Raise (e : exn)
  | Cancel.
Arguments Ret {A} a.
Arguments Raise {A} e.
Arguments Cancel {A}.


End Py.

(* ===================================================================== *)
(** ** CacheManager ([utils/cache.py]) *)
(* ===================================================================== *)

Module CacheManager.

(** [self._store]: key to [(expires, value)]. *)
Abbreviation store := (gmap string (Q * Py.value)).

Definition empty : store := ∅.

(** [get] at wall-clock time [now]; returns the result and the store,
    from which an expired entry has been popped. *)
Definition get (st : store) (now : Q) (key : string) : Py.value * store :=
  match st !! key with
  | None => (Py.VNone, st)
  | Some (expires, value) =>
      if Qlt_le_dec expires now
      then (Py.VNone, delete key st)
      else (value, st)
  end.

(** [set] at wall-clock time [now]. *)
Definition set (st : store) (now : Q) (key : string) (value : Py.value)
    (ttl : Z) : store :=
  <[key := ((now + inject_Z ttl)%Q, value)]> st.

End CacheManager.

(* ===================================================================== *)
(** ** UnusualWhalesAPIService ([services/api_service.py]) *)
(* ===================================================================== *)

Module ApiService.

Import Py.

Inductive APIErrorType : Type :=
  | NETWORK_ERROR
  | AUTHENTICATION_ERROR
  | RATE_LIMIT_ERROR
  | DATA_ERROR
  | TIMEOUT_ERROR
  | UNKNOWN_ERROR.

(** The [APIResponse] dataclass.  [data] is [VNone] when the field is
    [None]. *)
Record APIResponse : Type := mkResponse {
  success : bool;
  data : value;
  error : option string;
  error_type : option APIErrorType;
  status_code : option Z;
  cached : bool;
  request_id : option string
}.

(** Query parameters: the callers of this repository pass [int]s and
    [str]s.  A [dict] of parameters is its list of items in insertion
    order; its keys are pairwise distinct. *)
Inductive pval : Type := PInt (n : Z) | PStr (s : string).

Definition str_pval (v : pval) : string :=
  match v with PInt n => str_int n | PStr s => s end.

Definition params_t : Type := option (list (string * pval)).

(** [sorted(params.items())]: the items are ordered by key (keys being
    distinct, the values never decide). *)
Fixpoint insert_item (x : string * pval) (l : list (string * pval))
    : list (string * pval) :=
  match l with
  | [] => [x]
  | y :: r => if String.leb (fst x) (fst y) then x :: l
              else y :: insert_item x r
  end.

Definition sorted_items (l : list (string * pval)) : list (string * pval) :=
  foldr insert_item [] l.

Definition _generate_cache_key (endpoint : string) (params : params_t)
    : string :=
  let key_parts :=
    match params with
    | Some ((_ :: _) as items) =>
        endpoint :: map (fun kv => fst kv +:+ "=" +:+ str_pval (snd kv))
                        (sorted_items items)
    | _ => [endpoint]
    end in
  join "|" key_parts.

(** What the transport hands back for a dispatched request: the status,
    and what [await response.json()] and [await response.text()] do. *)
Record http_response : Type := mkHttp {
  status : Z;
  json : exn + value;
  text : exn + string
}.

(** The configuration read by the service. *)
Record config : Type := mkConfig {
  rate_limit_per_second : Q;
  default_ttl : Z
}.

(** The mutable attributes of the service object. *)
Record t : Type := mkService {
  cfg : config;
  rate_limiter : RateLimiter.t;
  cache_manager : CacheManager.store;
  _request_counter : Z
}.

Definition init (c : config) : t :=
  {| cfg := c;
     rate_limiter := RateLimiter.init (rate_limit_per_second c);
     cache_manager := CacheManager.empty;
     _request_counter := 0 |}.

(** What one call observes of the outside world. *)
Record env : Type := mkEnv {
  now : Q;            (* [time.time()] on entry and in [cache.get] *)
  mono : Q;           (* [time.monotonic()] on entering [acquire] *)
  lag : Q;            (* lateness of the second reading in [acquire] *)
  now_set : Q;        (* [time.time()] in [cache.set] *)
  reply : exn + http_response   (* outcome of [self._session.request] *)
}.

(** The observable effects of a call. *)
Inductive event : Type :=
  | Acquire (slept : Q)
  | Dispatch (method endpoint : string) (params : params_t) (body : value).

Definition failure (msg : string) (ty : APIErrorType) (code : option Z)
    (rid : option string) : APIResponse :=
  {| success := false; data := VNone; error := Some msg;
     error_type := Some ty; status_code := code; cached := false;
     request_id := rid |}.

(** [_process_response]: a response, or the exception that escapes. *)
Definition _process_response (response : http_response) (rid : string)
    : exn + APIResponse :=
  if (status response =? 200)%Z then
    match json response with
    | inr d =>
        inr {| success := true; data := d; error := None;
               error_type := None; status_code := Some (status response);
               cached := false; request_id := Some rid |}
    | inl (JSONDecodeError _) =>
        inr (failure "Invalid JSON response" DATA_ERROR
                     (Some (status response)) (Some rid))
    | inl e => inl e
    end
  else if (status response =? 401)%Z then
    inr (failure "Authentication failed - check API token"
                 AUTHENTICATION_ERROR (Some (status response)) (Some rid))
  else if (status response =? 429)%Z then
    inr (failure "Rate limit exceeded" RATE_LIMIT_ERROR
                 (Some (status response)) (Some rid))
  else
    match text response with
    | inr error_text =>
        inr (failure ("API error " +:+ str_int (status response) +:+ ": "
                      +:+ error_text)
                     DATA_ERROR (Some (status response)) (Some rid))
    | inl e => inl e
    end.

(** The three [except] clauses of [_make_request], in order. *)
Definition handle_exception (e : exn) (rid : string) : APIResponse :=
  match e with
  | TimeoutError => failure "Request timeout" TIMEOUT_ERROR None (Some rid)
  | ClientError m =>
      failure ("Network error: " +:+ m) NETWORK_ERROR None (Some rid)
  | _ =>
      failure ("Unexpected error: " +:+ str_exn e) UNKNOWN_ERROR None
              (Some rid)
  end.

Definition is_get (method : string) : bool := String.eqb (upper method) "GET".

(** [cache_ttl or config.cache.default_ttl]. *)
Definition ttl_of (c : config) (cache_ttl : option Z) : Z :=
  match cache_ttl with
  | Some n => if (n =? 0)%Z then default_ttl c else n
  | None => default_ttl c
  end.

Definition make_request_id (counter : Z) (now : Q) : string :=
  "req_" +:+ str_int counter +:+ "_" +:+ str_int (int_of now).

(** [_make_request]. *)
Definition _make_request (s : t) (e : env) (method endpoint : string)
    (params : params_t) (body : value) (cache_ttl : option Z)
    (bypass_cache : bool) : APIResponse * t * list event :=
  let counter := (_request_counter s + 1)%Z in
  let rid := make_request_id counter (now e) in
  let cache_key := _generate_cache_key endpoint params in
  let lookup := is_get method && negb bypass_cache in
  let '(cached_response, st1) :=
    if lookup then CacheManager.get (cache_manager s) (now e) cache_key
    else (VNone, cache_manager s) in
  if lookup && truthy cached_response then
    ({| success := true; data := cached_response; error := None;
        error_type := None; status_code := None; cached := true;
        request_id := Some rid |},
     mkService (cfg s) (rate_limiter s) st1 counter,
     [])
  else
    let '(rl, slept) := RateLimiter.acquire (rate_limiter s) (mono e) (lag e) in
    let evs := [Acquire slept; Dispatch method endpoint params body] in
    match reply e with
    | inl ex => (handle_exception ex rid, mkService (cfg s) rl st1 counter, evs)
    | inr response =>
        match _process_response response rid with
        | inl ex =>
            (handle_exception ex rid, mkService (cfg s) rl st1 counter, evs)
        | inr response_data =>
            let st2 :=
              if is_get method && success response_data
                 && truthy (data response_data) && negb bypass_cache
              then CacheManager.set st1 (now_set e) cache_key
                     (data response_data) (ttl_of (cfg s) cache_ttl)
              else st1 in
            (response_data, mkService (cfg s) rl st2 counter, evs)
        end
    end.

(** The states a service built from configuration [c] can be in: the
    cache and the limiter are written by [_make_request] only. *)
Inductive reachable (c : config) : t -> Prop :=
  | reach_init : reachable c (init c)
  | reach_request s e method endpoint params body cache_ttl bypass_cache :
      reachable c s ->
      reachable c (snd (fst (_make_request s e method endpoint params body
                                           cache_ttl bypass_cache))).

(** The endpoint wrappers used by the controller. *)
Definition get_stock_info (s : t) (e : env) (ticker : string) :=
  _make_request s e "GET" ("/api/stock/" +:+ ticker +:+ "/info")
                None VNone None false.

(** [get_multiple_stock_data]: the tasks are awaited in the order of
    [tickers]; each task either returned a response or raised.  A ticker
    listed twice keeps the entry written last. *)
Fixpoint collect (results : gmap string APIResponse)
    (tasks : list (string * (exn + APIResponse))) : gmap string APIResponse :=
  match tasks with
  | [] => results
  | (ticker, inr response) :: rest =>
      collect (<[ticker := response]> results) rest
  | (ticker, inl e) :: rest =>
      collect (<[ticker := failure (str_exn e) UNKNOWN_ERROR None None]> results)
              rest
  end.

Definition get_multiple_stock_data
    (tasks : list (string * (exn + APIResponse))) : gmap string APIResponse :=
  collect ∅ tasks.

(** *** Notions used to state the properties *)

(** The store left by the cache lookup of a call. *)
Definition after_lookup (s : t) (e : env) (method endpoint : string)
    (params : params_t) (bypass : bool) : CacheManager.store :=
  if is_get method && negb bypass
  then snd (CacheManager.get (cache_manager s) (now e)
              (_generate_cache_key endpoint params))
  else cache_manager s.

(** The call finds nothing it can use in the cache: it does not look,
    or what it gets is falsy. *)
Definition missed (s : t) (e : env) (method endpoint : string)
    (params : params_t) (bypass : bool) : Prop :=
  is_get method && negb bypass = false
  \/ truthy (fst (CacheManager.get (cache_manager s) (now e)
                    (_generate_cache_key endpoint params))) = false.

(** Every value in the cache is truthy. *)
Definition cache_truthy (st : CacheManager.store) : Prop :=
  forall k expires v, st !! k = Some (expires, v) -> truthy v = true.

End ApiService.

(* ===================================================================== *)
(** ** MainController ([controllers/main_controller.py]) *)
(* ===================================================================== *)

Module Controller.

Import Py.
Import ApiService.

Inductive AnalysisStatus : Type :=
  | IDLE | RUNNING | COMPLETED | ERROR | CANCELLED.

(** The [AnalysisProgress] dataclass. *)
Record AnalysisProgress : Type := mkProgress {
  status : AnalysisStatus;
  current_step : string;
  progress_percent : Q;
  total_steps : Z;
  completed_steps : Z;
  error_message : option string;
  start_time : option Q;
  estimated_completion : option Q
}.

(** The handle kept in [_active_analyses]: the task, and whether
    [task.cancel()] has been called on it. *)
Record task : Type := mkTask {
  task_id : nat;
  cancel_requested : bool
}.

(** The state attributes of the controller.  [_analysis_progress] holds
    one mutable record per ticker; the [progress] variable of a running
    [analyze_ticker] and of its [_perform_ticker_analysis] is that very
    record, so their field assignments are updates of the map entry. *)
Record t : Type := mkController {
  _active_analyses : gmap string task;            (* [_active_analyses] *)
  _analysis_progress : gmap string AnalysisProgress;  (* [_analysis_progress] *)
  next_task : nat
}.

Definition init : t :=
  {| _active_analyses := ∅; _analysis_progress := ∅; next_task := 0 |}.

(** The dictionary sent with [earnings_data_updated]. *)
Record analysis_payload : Type := mkPayload {
  p_stock_info : value;
  p_earnings_data : value;
  p_options_flow : value;
  p_insider_trades : value;
  p_analysis_results : value
}.

(** The awaited calls of the pipeline. *)
Inductive call : Type :=
  | GetStockInfo (ticker : string)
  | GetEarningsCalendar
  | GetOptionsFlow (ticker : string)
  | GetInsiderTrades (ticker : string)
  | AnalyzeTicker (ticker : string)
      (stock_info earnings_data options_flow insider_trades : value).

(** Signals emitted and calls that returned, in program order.  A
    [ProgressUpdated] event carries the record as it is when emitted. *)
Inductive event : Type :=
  | ProgressUpdated (ticker : string) (p : AnalysisProgress)
  | EarningsDataUpdated (ticker : string) (d : analysis_payload)
  | ErrorOccurred (kind message : string)
  | Notification (level title message : string)
  | Returned (c : call).

(** What the collaborators answer during one pipeline run.  The analysis
    service is not part of the sources; it is a parameter. *)
Record world : Type := mkWorld {
  w_stock_info : outcome APIResponse;
  w_earnings : outcome APIResponse;
  w_options_flow : outcome APIResponse;
  w_insider_trades : outcome APIResponse;
  w_analysis : value -> value -> value -> value -> outcome value
}.

(** *** A small monad: the progress record, the event log, exceptions

    The state threaded through the pipeline is the [progress] record it
    mutates. *)

Definition M (A : Type) : Type :=
  AnalysisProgress -> outcome A * AnalysisProgress * list event.

Definition ret {A} (a : A) : M A := fun p => (Ret a, p, []).

Definition bind {A B} (m : M A) (f : A -> M B) : M B := fun p =>
  match m p with
  | (Ret a, p1, evs1) =>
      let '(r, p2, evs2) := f a p1 in (r, p2, evs1 ++ evs2)
  | (Raise e, p1, evs1) => (Raise e, p1, evs1)
  | (Cancel, p1, evs1) => (Cancel, p1, evs1)
  end.

Notation "x <- m ;; k" := (bind m (fun x => k))
  (at level 100, m at level 99, k at level 200, right associativity).
Notation "m ;;; k" := (bind m (fun _ => k))
  (at level 100, k at level 200, right associativity).

Definition raise {A} (e : exn) : M A := fun p => (Raise e, p, []).

Definition emit (ev : event) : M unit := fun p => (Ret tt, p, [ev]).

(** [x = await f(...)]: the call's outcome; when it returns, the trace
    records it. *)
Definition await {A} (what : call) (o : outcome A) : M A := fun p =>
  match o with
  | Ret a => (Ret a, p, [Returned what])
  | Raise e => (Raise e, p, [])
  | Cancel => (Cancel, p, [])
  end.

(** The three assignments and the [emit] that open every step. *)
Definition enter_step (ticker : string) (name : string) (n : Z) (pct : Q)
    : M unit := fun p =>
  let p' := mkProgress (status p) name pct (total_steps p) n
                       (error_message p) (start_time p)
                       (estimated_completion p) in
  (Ret tt, p', [ProgressUpdated ticker p']).

(** [r.data if r.success else None]. *)
Definition data_if_success (r : APIResponse) : value :=
  if success r then data r else VNone.

(** The body of [_perform_ticker_analysis], on the record bound to
    [progress].  The [except Exception: log; raise] around it re-raises
    what it catches.  [ApplicationError] is imported from
    [exceptions.py]; it is an [Exception].  Entering and leaving
    [async with api_service] opens and closes the HTTP session, which is
    not part of this model. *)
Definition pipeline (w : world) (ticker : string) (force_refresh : bool)
    : M bool :=
  enter_step ticker "Fetching stock information" 1 (167 # 10) ;;;
  stock_info <- await (GetStockInfo ticker) (w_stock_info w) ;;
  if negb (success stock_info) then
    raise (ApplicationError
             ("Failed to get stock info: " +:+ str_opt (error stock_info)))
  else
  enter_step ticker "Fetching earnings data" 2 (333 # 10) ;;;
  earnings_data <- await GetEarningsCalendar (w_earnings w) ;;
  enter_step ticker "Fetching options flow" 3 50 ;;;
  options_flow <- await (GetOptionsFlow ticker) (w_options_flow w) ;;
  enter_step ticker "Fetching insider trades" 4 (667 # 10) ;;;
  insider_trades <- await (GetInsiderTrades ticker) (w_insider_trades w) ;;
  enter_step ticker "Performing analysis" 5 (833 # 10) ;;;
  let a1 := data_if_success stock_info in
  let a2 := data_if_success earnings_data in
  let a3 := data_if_success options_flow in
  let a4 := data_if_success insider_trades in
  analysis_results <- await (AnalyzeTicker ticker a1 a2 a3 a4)
                            (w_analysis w a1 a2 a3 a4) ;;
  enter_step ticker "Saving results" 6 100 ;;;
  (if success stock_info then
     emit (EarningsDataUpdated ticker
             (mkPayload (data stock_info) a2 a3 a4 analysis_results))
   else ret tt) ;;;
  ret true.

Definition set_progress (ticker : string) (p : AnalysisProgress) (c : t) : t :=
  mkController (_active_analyses c) (<[ticker := p]> (_analysis_progress c))
               (next_task c).

(** [_perform_ticker_analysis]: [progress = self._analysis_progress[
    ticker]] (a [KeyError] when there is none), then the body. *)
Definition _perform_ticker_analysis (w : world) (ticker : string)
    (force_refresh : bool) (c : t) : outcome bool * t * list event :=
  match _analysis_progress c !! ticker with
  | Some progress =>
      let '(o, progress', evs) := pipeline w ticker force_refresh progress in
      (o, set_progress ticker progress' c, evs)
  | None => (Raise (OtherException "KeyError"), c, [])
  end.

(** [analyze_ticker] up to its [await task]: the check, the fresh
    progress record, the task creation and its registration run without
    a suspension point.  [None] is the early [return False]. *)
Definition analyze_ticker_begin (c : t) (ticker : string) (now : Q)
    : option string * t * list event :=
  let ticker := upper ticker in
  match _active_analyses c !! ticker with
  | Some _ => (None, c, [])
  | None =>
      let progress :=
        mkProgress RUNNING "Initializing analysis" 0 6 0 None (Some now) None in
      (Some ticker,
       mkController
         (<[ticker := mkTask (next_task c) false]> (_active_analyses c))
         (<[ticker := progress]> (_analysis_progress c))
         (S (next_task c)),
       [ProgressUpdated ticker progress])
  end.

(** [finally: if ticker in self._active_analyses: del ...]. *)
Definition cleanup (ticker : string) (c : t) : t :=
  mkController (delete ticker (_active_analyses c)) (_analysis_progress c)
               (next_task c).

(** What [analyze_ticker] does to its [progress] record once
    [await task] hands back the outcome of the task: the [try] body
    after the [await], or one of the two [except] clauses. *)
Definition conclude (ticker : string) (o : outcome bool) (p : AnalysisProgress)
    : bool * AnalysisProgress * list event :=
  match o with
  | Ret result =>
      let p' := mkProgress COMPLETED "Analysis completed" 100
                  (total_steps p) (total_steps p) (error_message p)
                  (start_time p) (estimated_completion p) in
      (result, p', [ProgressUpdated ticker p'])
  | Cancel =>
      let p' := mkProgress CANCELLED "Analysis cancelled"
                  (progress_percent p) (total_steps p) (completed_steps p)
                  (error_message p) (start_time p)
                  (estimated_completion p) in
      (false, p', [ProgressUpdated ticker p'])
  | Raise e =>
      let p' := mkProgress ERROR "Analysis failed"
                  (progress_percent p) (total_steps p) (completed_steps p)
                  (Some (str_exn e)) (start_time p)
                  (estimated_completion p) in
      (false, p',
       [ProgressUpdated ticker p';
        ErrorOccurred "analysis_error"
          ("Analysis failed for " +:+ ticker +:+ ": " +:+ str_exn e)])
  end.

(** [analyze_ticker] from the point where [await task] hands back the
    task's outcome, through the [finally] block; [ticker] is the
    upper-cased key.  The record bound to [progress] is the entry of the
    key, which exists from the start of the call on. *)
Definition analyze_ticker_end (c : t) (ticker : string) (o : outcome bool)
    : bool * t * list event :=
  match _analysis_progress c !! ticker with
  | Some p =>
      let '(result, p', evs) := conclude ticker o p in
      (result, cleanup ticker (set_progress ticker p' c), evs)
  | None =>
      (match o with Ret result => result | _ => false end,
       cleanup ticker c, [])
  end.

(** One whole [analyze_ticker], its task run to the end in between. *)
Definition analyze_ticker (w : world) (c : t) (ticker : string) (now : Q)
    (force_refresh : bool) : bool * t * list event :=
  match analyze_ticker_begin c ticker now with
  | (None, c1, evs1) => (false, c1, evs1)
  | (Some key, c1, evs1) =>
      let '(o, c2, evs2) := _perform_ticker_analysis w key force_refresh c1 in
      let '(b, c3, evs3) := analyze_ticker_end c2 key o in
      (b, c3, evs1 ++ evs2 ++ evs3)
  end.

(** [cancel_analysis]. *)
Definition cancel_analysis (c : t) (ticker : string) : bool * t :=
  let ticker := upper ticker in
  match _active_analyses c !! ticker with
  | Some h =>
      (true,
       mkController (<[ticker := mkTask (task_id h) true]> (_active_analyses c))
                    (_analysis_progress c) (next_task c))
  | None => (false, c)
  end.

(** *** Runs of the controller

    A configuration pairs the controller with the keys of the
    [analyze_ticker] calls that are past their registration and before
    their [finally] block (the coroutines suspended at [await task]).
    Between two suspension points a coroutine runs alone, so the moves
    are: a call starts or is turned away, the task of a live call does
    its work, a live call resumes with the outcome of its task, or
    [cancel_analysis] is called. *)
Definition config : Type := t * list string.

Inductive step : config -> config -> Prop :=
  | step_begin c live ticker now key c' evs :
      analyze_ticker_begin c ticker now = (Some key, c', evs) ->
      step (c, live) (c', key :: live)
  | step_reject c live ticker now c' evs :
      analyze_ticker_begin c ticker now = (None, c', evs) ->
      step (c, live) (c', live)
  | step_task c live w key fr o c' evs :
      key ∈ live ->
      _perform_ticker_analysis w key fr c = (o, c', evs) ->
      step (c, live) (c', live)
  | step_end c l1 key l2 o b c' evs :
      analyze_ticker_end c key o = (b, c', evs) ->
      step (c, l1 ++ key :: l2) (c', l1 ++ l2)
  | step_cancel c live ticker b c' :
      cancel_analysis c ticker = (b, c') ->
      step (c, live) (c', live).

Inductive reachable : config -> Prop :=
  | reach_start : reachable (init, [])
  | reach_step x y : reachable x -> step x y -> reachable y.

(** *** [batch_analyze_watchlist] *)











(** *** Notions used to state the properties *)



(** Rounding to one decimal place (halves up). *)
Definition round1 (q : Q) : Q :=
  (inject_Z (Qfloor (q * 10 + (1 # 2))) / 10)%Q.

Definition percent_of (p : AnalysisProgress) : Q :=
  (inject_Z (completed_steps p) / inject_Z (total_steps p) * 100)%Q.

(** The events that end the work of a step: an awaited call returning,
    and the publication of the results. *)
Definition is_work (ev : event) : bool :=
  match ev with
  | Returned _ | EarningsDataUpdated _ _ => true
  | _ => false
  end.

Definition steps_done (evs : list event) : Z :=
  Z.of_nat (length (filter (fun ev => is_work ev = true) evs)).

Definition record_ok (done prev : Z) (p : AnalysisProgress) : bool :=
  Qeq_bool (progress_percent p) (round1 (percent_of p))
  && (completed_steps p - 1 <=? done)%Z
  && (prev <=? completed_steps p)%Z
  && (completed_steps p <=? prev + 1)%Z
  && (0 <=? completed_steps p)%Z
  && (completed_steps p <=? total_steps p)%Z.

(** Runs over a trace with the number of steps whose work is done and
    the [completed_steps] of the last record, and checks every emitted
    record. *)
Fixpoint check_trace (done prev : Z) (evs : list event) : bool :=
  match evs with
  | [] => true
  | ProgressUpdated _ p :: rest =>
      record_ok done prev p && check_trace done (completed_steps p) rest
  | ev :: rest =>
      check_trace (if is_work ev then done + 1 else done)%Z prev rest
  end.

(** [completed_steps] of the last record emitted in [evs], or [prev]. *)
Fixpoint last_completed (prev : Z) (evs : list event) : Z :=
  match evs with
  | [] => prev
  | ProgressUpdated _ p :: rest => last_completed (completed_steps p) rest
  | _ :: rest => last_completed prev rest
  end.

(** The record a call starts with. *)
Definition fresh_progress (now : Q) : AnalysisProgress :=
  mkProgress RUNNING "Initializing analysis" 0 6 0 None (Some now) None.





End Controller.

(* ===================================================================== *)
(** * Properties *)
(* ===================================================================== *)

(** Opens the monadic body of the pipeline into nested matches. *)
Ltac unfold_pipeline :=
  unfold Controller.pipeline, Controller.bind, Controller.enter_step,
    Controller.await, Controller.raise, Controller.emit, Controller.ret.

(** * RateLimiter *)
Section RateLimiterProps.
Import RateLimiter.
Local Open Scope Q_scope.

Lemma slept_of_nonneg rl now : 0 <= slept_of rl now.
Proof. unfold slept_of. destruct (Qlt_le_dec 0 (wait_of rl now)); lra. Qed.




Lemma acquire_min_interval rl now lag :
  min_interval (fst (acquire rl now lag)) = min_interval rl.
Proof. reflexivity. Qed.







End RateLimiterProps.

(* ===================================================================== *)
(** * CacheManager *)
(* ===================================================================== *)

Section CacheProps.
Import Py.
Local Open Scope Q_scope.

Lemma cache_get_absent (st : CacheManager.store) now key :
  st !! key = None -> CacheManager.get st now key = (VNone, st).
Proof. intros H. unfold CacheManager.get. rewrite H. reflexivity. Qed.

Lemma cache_get_live (st : CacheManager.store) now key expires v :
  st !! key = Some (expires, v) -> now <= expires ->
  CacheManager.get st now key = (v, st).
Proof.
  intros H Hle. unfold CacheManager.get. rewrite H.
  destruct (Qlt_le_dec expires now); [lra | reflexivity].
Qed.

Lemma cache_get_expired (st : CacheManager.store) now key expires v :
  st !! key = Some (expires, v) -> expires < now ->
  CacheManager.get st now key = (VNone, delete key st).
Proof.
  intros H Hlt. unfold CacheManager.get. rewrite H.
  destruct (Qlt_le_dec expires now); [reflexivity | lra].
Qed.

Lemma cache_set_lookup (st : CacheManager.store) t0 key v ttl :
  CacheManager.set st t0 key v ttl !! key = Some (t0 + inject_Z ttl, v).
Proof. unfold CacheManager.set. apply lookup_insert_eq. Qed.

Lemma cache_set_other (st : CacheManager.store) t0 key v ttl key' :
  key <> key' -> CacheManager.set st t0 key v ttl !! key' = st !! key'.
Proof. intros H. unfold CacheManager.set. by apply lookup_insert_ne. Qed.

(** The store after [get] never has more than before, and only the
    looked-up key can go. *)
Lemma cache_get_store (st : CacheManager.store) now key :
  snd (CacheManager.get st now key) = st
  \/ snd (CacheManager.get st now key) = delete key st.
Proof.
  unfold CacheManager.get. destruct (st !! key) as [[expires v]|]; [|by left].
  destruct (Qlt_le_dec expires now); [by right | by left].
Qed.

(** C5, as stated, fails on the code at the expiry instant and for a
    negative ttl: an entry set at time 0 with ttl 5 is still returned by
    [get] at time 5, where [now < expiresAt] is false and the ttl has
    elapsed; and [get] at the very time of a [set] with ttl -1 returns
    absent. *)
Lemma cache_visible_at_expiry_instant :
  let st := CacheManager.set CacheManager.empty 0 "k" (VInt 1) 5 in
  let st' := CacheManager.set CacheManager.empty 0 "k" (VInt 1) (-1) in
  ~ (5 < 0 + inject_Z 5)
  /\ CacheManager.get st 5 "k" = (VInt 1, st)
  /\ fst (CacheManager.get st' 0 "k") = VNone.
Proof.
  intros st st'. split; [|split].
  - intros H. vm_compute in H. discriminate H.
  - apply (cache_get_live st 5 "k" (0 + inject_Z 5) (VInt 1)).
    + apply cache_set_lookup.
    + unfold Qle. simpl. lia.
  - rewrite (cache_get_expired st' 0 "k" (0 + inject_Z (-1)) (VInt 1)).
    + reflexivity.
    + apply cache_set_lookup.
    + reflexivity.
Qed.

(** C5, amended.  After [set(key, value, ttl)] at time [t0] the entry of
    [key] is [(t0 + ttl, value)] whatever was there before, and the other
    keys are untouched; [get(key)] returns [value] and leaves the store
    alone at every time [now <= t0 + ttl], in particular at [t0] itself
    when [ttl >= 0]; at every time [now > t0 + ttl] it returns absent and
    removes the entry.  In general an entry is returned exactly while
    [now <= expires]. *)
Theorem cache_set_then_get (st : CacheManager.store) (t0 : Q) (key : string)
    (v : value) (ttl : Z) :
  let st' := CacheManager.set st t0 key v ttl in
  st' !! key = Some (t0 + inject_Z ttl, v)
  /\ (forall key', key <> key' -> st' !! key' = st !! key')
  /\ ((0 <= ttl)%Z -> CacheManager.get st' t0 key = (v, st'))
  /\ (forall now, now <= t0 + inject_Z ttl ->
        CacheManager.get st' now key = (v, st'))
  /\ (forall now, t0 + inject_Z ttl < now ->
        CacheManager.get st' now key = (VNone, delete key st')
        /\ snd (CacheManager.get st' now key) !! key = None)
  /\ (forall (s : CacheManager.store) k expires x now,
        s !! k = Some (expires, x) ->
        (now <= expires -> CacheManager.get s now k = (x, s))
        /\ (expires < now -> CacheManager.get s now k = (VNone, delete k s))).
Proof.
  intros st'. pose proof (cache_set_lookup st t0 key v ttl) as Hl.
  split; [exact Hl|]. split; [intros; by apply cache_set_other|].
  split; [|split; [|split]].
  - intros Httl. eapply cache_get_live; [exact Hl|].
    assert (0 <= inject_Z ttl) by (change 0 with (inject_Z 0);
      rewrite <- Zle_Qle; exact Httl). lra.
  - intros now Hle. eapply cache_get_live; [exact Hl | exact Hle].
  - intros now Hlt.
    rewrite (cache_get_expired st' now key _ v Hl Hlt).
    split; [reflexivity | apply lookup_delete_eq].
  - intros s k expires x now Hs. split; intros H.
    + eapply cache_get_live; eauto.
    + eapply cache_get_expired; eauto.
Qed.

Lemma cache_set_then_get_witness :
  let st' := CacheManager.set CacheManager.empty 10 "k" (VInt 7) 300 in
  CacheManager.get st' 10 "k" = (VInt 7, st')
  /\ CacheManager.get st' 310 "k" = (VInt 7, st')
  /\ CacheManager.get st' 311 "k" = (VNone, delete "k" st').
Proof.
  intros st'.
  pose proof (cache_set_then_get CacheManager.empty 10 "k" (VInt 7) 300)
    as (_ & _ & H0 & H1 & H2 & _).
  split; [|split].
  - apply H0. lia.
  - apply H1. unfold Qle. simpl. lia.
  - apply H2. reflexivity.
Defined.

End CacheProps.

(* ===================================================================== *)
(** * UnusualWhalesAPIService *)
(* ===================================================================== *)

Section ApiProps.
Import Py ApiService.
Local Open Scope Q_scope.

(** The cache key does not depend on the order of the parameters. *)
Example cache_key_sorted :
  _generate_cache_key "/api/earnings/calendar"
    (Some [("limit"%string, PInt 50); ("date"%string, PStr "2025-01-15")])
  = "/api/earnings/calendar|date=2025-01-15|limit=50"%string
  /\ _generate_cache_key "/api/earnings/calendar"
       (Some [("date"%string, PStr "2025-01-15"); ("limit"%string, PInt 50)])
     = "/api/earnings/calendar|date=2025-01-15|limit=50"%string
  /\ _generate_cache_key "/api/stock/AAPL/info" None
     = "/api/stock/AAPL/info"%string.
Proof. repeat split; vm_compute; reflexivity. Qed.

(** The two ways through [_make_request]. *)
Lemma make_request_hit s e method endpoint params body cache_ttl bypass :
  is_get method && negb bypass = true ->
  truthy (fst (CacheManager.get (cache_manager s) (now e)
                 (_generate_cache_key endpoint params))) = true ->
  _make_request s e method endpoint params body cache_ttl bypass
  = (mkResponse true
       (fst (CacheManager.get (cache_manager s) (now e)
               (_generate_cache_key endpoint params)))
       None None None true
       (Some (make_request_id (_request_counter s + 1) (now e))),
     mkService (cfg s) (rate_limiter s)
       (snd (CacheManager.get (cache_manager s) (now e)
               (_generate_cache_key endpoint params)))
       (_request_counter s + 1)%Z,
     []).
Proof.
  intros Hl Ht. unfold _make_request. rewrite Hl.
  destruct (CacheManager.get _ _ _) as [cr st1]. cbn [fst snd] in *.
  rewrite Ht. reflexivity.
Qed.

Lemma make_request_miss s e method endpoint params body cache_ttl bypass :
  missed s e method endpoint params bypass ->
  let rid := make_request_id (_request_counter s + 1) (now e) in
  let st1 := after_lookup s e method endpoint params bypass in
  let rl := fst (RateLimiter.acquire (rate_limiter s) (mono e) (lag e)) in
  let slept := snd (RateLimiter.acquire (rate_limiter s) (mono e) (lag e)) in
  let evs := [Acquire slept; Dispatch method endpoint params body] in
  _make_request s e method endpoint params body cache_ttl bypass
  = match reply e with
    | inl ex => (handle_exception ex rid,
                 mkService (cfg s) rl st1 (_request_counter s + 1)%Z, evs)
    | inr response =>
        match _process_response response rid with
        | inl ex => (handle_exception ex rid,
                     mkService (cfg s) rl st1 (_request_counter s + 1)%Z, evs)
        | inr response_data =>
            (response_data,
             mkService (cfg s) rl
               (if is_get method && success response_data
                   && truthy (data response_data) && negb bypass
                then CacheManager.set st1 (now_set e)
                       (_generate_cache_key endpoint params)
                       (data response_data) (ttl_of (cfg s) cache_ttl)
                else st1)
               (_request_counter s + 1)%Z, evs)
        end
    end.
Proof.
  intros Hm. unfold missed in Hm. unfold _make_request, after_lookup.
  destruct (is_get method && negb bypass) eqn:Hl.
  - destruct Hm as [Hm|Hm]; [discriminate|].
    destruct (CacheManager.get _ _ _) as [cr st1]. cbn [fst snd] in *.
    rewrite Hm. cbn [andb]. reflexivity.
  - cbn [andb]. reflexivity.
Qed.

Lemma hit_or_miss s e method endpoint params bypass :
  (is_get method && negb bypass = true
   /\ truthy (fst (CacheManager.get (cache_manager s) (now e)
                     (_generate_cache_key endpoint params))) = true)
  \/ missed s e method endpoint params bypass.
Proof.
  unfold missed. destruct (is_get method && negb bypass); [|by right; left].
  destruct (truthy _); [by left | by right; right].
Qed.

Lemma cache_truthy_get st now key :
  cache_truthy st -> cache_truthy (snd (CacheManager.get st now key)).
Proof.
  intros H. destruct (cache_get_store st now key) as [-> | ->]; [exact H|].
  intros k ex v Hk. apply lookup_delete_Some in Hk as [_ Hk]. eauto.
Qed.

Lemma cache_truthy_after_lookup s e method endpoint params bypass :
  cache_truthy (cache_manager s) ->
  cache_truthy (after_lookup s e method endpoint params bypass).
Proof.
  intros H. unfold after_lookup.
  destruct (is_get method && negb bypass); [by apply cache_truthy_get | exact H].
Qed.

Lemma cache_truthy_set st now key v ttl :
  cache_truthy st -> truthy v = true ->
  cache_truthy (CacheManager.set st now key v ttl).
Proof.
  intros H Hv k ex x Hk. unfold CacheManager.set in Hk.
  destruct (decide (key = k)) as [->|Hne].
  - rewrite lookup_insert_eq in Hk. congruence.
  - rewrite lookup_insert_ne in Hk by exact Hne. eauto.
Qed.

Lemma make_request_cache_truthy s e method endpoint params body cache_ttl bypass :
  cache_truthy (cache_manager s) ->
  cache_truthy (cache_manager (snd (fst
    (_make_request s e method endpoint params body cache_ttl bypass)))).
Proof.
  intros H.
  destruct (hit_or_miss s e method endpoint params bypass) as [[Hl Ht]|Hm].
  - rewrite make_request_hit by assumption. cbn [fst snd cache_manager].
    by apply cache_truthy_get.
  - rewrite make_request_miss by assumption.
    pose proof (cache_truthy_after_lookup s e method endpoint params bypass H)
      as H1.
    destruct (reply e) as [ex|response]; [exact H1|].
    destruct (_process_response _ _) as [ex|rd]; [exact H1|].
    cbn [fst snd cache_manager].
    destruct (is_get method && success rd && truthy (data rd) && negb bypass)
      eqn:Hc; [|exact H1].
    apply cache_truthy_set; [exact H1|].
    rewrite !andb_true_iff in Hc. tauto.
Qed.

Lemma reachable_cache_truthy c s :
  ApiService.reachable c s -> cache_truthy (cache_manager s).
Proof.
  induction 1 as [|s e method endpoint params body cache_ttl bypass _ IH].
  - intros k ex v Hk. unfold init, CacheManager.empty in Hk.
    cbn [cache_manager] in Hk. rewrite lookup_empty in Hk. discriminate Hk.
  - by apply make_request_cache_truthy.
Qed.

(** C2.  In every state the service can reach, a GET with
    [bypass_cache=False] whose cache key holds an entry that has not
    expired ([now <= expires], which covers [now < expires]) returns at
    once: [success] and [cached] are true, the payload is the cached
    value, no error is set, the rate limiter is neither acquired nor
    changed, and nothing is dispatched. *)
Theorem cache_hit_skips_network (c : config) (s : t) (e : env)
    (method endpoint : string) (params : params_t) (body : value)
    (cache_ttl : option Z) (expires : Q) (v : value) :
  ApiService.reachable c s ->
  is_get method = true ->
  cache_manager s !! _generate_cache_key endpoint params = Some (expires, v) ->
  now e <= expires ->
  let r := _make_request s e method endpoint params body cache_ttl false in
  success (fst (fst r)) = true
  /\ cached (fst (fst r)) = true
  /\ data (fst (fst r)) = v
  /\ error_type (fst (fst r)) = None
  /\ snd r = []
  /\ rate_limiter (snd (fst r)) = rate_limiter s
  /\ cache_manager (snd (fst r)) = cache_manager s.
Proof.
  intros Hr Hg Hk Hle r.
  pose proof (reachable_cache_truthy c s Hr _ _ _ Hk) as Hv.
  pose proof (cache_get_live _ _ _ _ _ Hk Hle) as Hget.
  subst r. rewrite make_request_hit.
  - rewrite Hget. cbn. repeat split; reflexivity.
  - rewrite Hg. reflexivity.
  - rewrite Hget. exact Hv.
Qed.

Lemma cache_hit_skips_network_witness :
  let c := mkConfig 10 300 in
  let e1 := mkEnv 100 5 0 101
              (inr (mkHttp 200 (inr (VDict [("ticker", VStr "AAPL")])) (inr ""))) in
  let s := snd (fst (_make_request (init c) e1 "GET" "/api/stock/AAPL/info"
                                   None VNone None false)) in
  let e2 := mkEnv 200 6 0 201 (inl TimeoutError) in
  let r := _make_request s e2 "get" "/api/stock/AAPL/info" None VNone None
                         false in
  success (fst (fst r)) = true
  /\ cached (fst (fst r)) = true
  /\ data (fst (fst r)) = VDict [("ticker", VStr "AAPL")]
  /\ snd r = [].
Proof.
  intros c e1 s e2 r.
  pose proof (cache_hit_skips_network c s e2 "get" "/api/stock/AAPL/info"
                None VNone None (101 + inject_Z 300)
                (VDict [("ticker", VStr "AAPL")])) as H.
  destruct H as (H1 & H2 & H3 & _ & H5 & _).
  - apply reach_request. apply reach_init.
  - reflexivity.
  - vm_compute. reflexivity.
  - unfold Qle. simpl. lia.
  - auto.
Defined.








Lemma handle_exception_shape ex rid :
  success (handle_exception ex rid) = false
  /\ data (handle_exception ex rid) = VNone
  /\ cached (handle_exception ex rid) = false
  /\ error_type (handle_exception ex rid) <> None.
Proof. destruct ex; cbn; repeat split; congruence. Qed.

Lemma process_response_shape h rid r :
  _process_response h rid = inr r ->
  cached r = false
  /\ (success r = true <-> error_type r = None)
  /\ (success r = false -> data r = VNone)
  /\ (success r = true -> status h = 200%Z /\ json h = inr (data r)).
Proof.
  unfold _process_response.
  destruct (status h =? 200)%Z eqn:H2.
  - apply Z.eqb_eq in H2. destruct (json h) as [ex|d].
    + destruct ex; intros [= <-]; cbn; repeat split; congruence.
    + intros [= <-]; cbn; repeat split; congruence.
  - destruct (status h =? 401)%Z;
      [intros [= <-]; cbn; repeat split; congruence|].
    destruct (status h =? 429)%Z;
      [intros [= <-]; cbn; repeat split; congruence|].
    destruct (text h) as [ex|tx]; [discriminate|].
    intros [= <-]; cbn; repeat split; congruence.
Qed.

(** What holds of every response of [_make_request]: [success] is true
    exactly when no error type is set, a failure carries no payload, and
    a success whose payload is [None] is an uncached 200 response whose
    body decoded to [None]. *)
Lemma make_request_response_shape s e method endpoint params body cache_ttl
    bypass :
  let r := fst (fst (_make_request s e method endpoint params body cache_ttl
                                   bypass)) in
  (success r = true <-> error_type r = None)
  /\ (success r = false -> data r = VNone)
  /\ (success r = true -> data r = VNone ->
        cached r = false
        /\ exists h, reply e = inr h /\ status h = 200%Z /\ json h = inr VNone).
Proof.
  intros r. subst r.
  destruct (hit_or_miss s e method endpoint params bypass) as [[Hl Ht]|Hm].
  - rewrite make_request_hit by assumption. cbn [fst success error_type data].
    split; [tauto|]. split; [discriminate|].
    intros _ Hn. rewrite Hn in Ht. discriminate.
  - rewrite make_request_miss by assumption.
    destruct (reply e) as [ex|h].
    + pose proof (handle_exception_shape ex
        (make_request_id (_request_counter s + 1) (now e))) as (H1 & H2 & _ & H4).
      cbn [fst]. rewrite H1. split; [split; [discriminate | tauto]|].
      split; [auto | discriminate].
    + destruct (_process_response h _) as [ex|rd] eqn:Hp.
      * pose proof (handle_exception_shape ex
          (make_request_id (_request_counter s + 1) (now e)))
          as (H1 & H2 & _ & H4).
        cbn [fst]. rewrite H1. split; [split; [discriminate | tauto]|].
        split; [auto | discriminate].
      * apply process_response_shape in Hp as (Hc & Hs & Hd & Hj).
        cbn [fst]. split; [exact Hs|]. split; [exact Hd|].
        intros Hsu Hn. split; [exact Hc|]. exists h.
        destruct (Hj Hsu) as [H2 H3]. rewrite Hn in H3. auto.
Qed.

(** The same for the results collected by [get_multiple_stock_data]
    from tasks that each ran [get_stock_info] or raised. *)
Lemma collect_shape tasks : forall results ticker r,
  (forall k x, results !! k = Some x ->
     (success x = true <-> error_type x = None)
     /\ (success x = false -> data x = VNone)) ->
  Forall (fun task => match snd task with
                      | inr x => exists s e,
                          x = fst (fst (get_stock_info s e (fst task)))
                      | inl _ => True
                      end) tasks ->
  collect results tasks !! ticker = Some r ->
  (success r = true <-> error_type r = None)
  /\ (success r = false -> data r = VNone).
Proof.
  induction tasks as [|[tk [ex|x]] rest IH]; intros results ticker r Hres Hall.
  - intros H. eauto.
  - inversion Hall as [|? ? _ Hrest]; subst. cbn [collect].
    apply IH; [|exact Hrest].
    intros k y Hk. destruct (decide (tk = k)) as [->|Hne].
    + rewrite lookup_insert_eq in Hk. injection Hk as <-. cbn.
      split; [split; discriminate | reflexivity].
    + rewrite lookup_insert_ne in Hk by exact Hne. eauto.
  - inversion Hall as [|? ? Hx Hrest]; subst. cbn [collect].
    apply IH; [|exact Hrest].
    intros k y Hk. destruct (decide (tk = k)) as [->|Hne].
    + rewrite lookup_insert_eq in Hk. injection Hk as <-.
      cbn [snd fst] in Hx. destruct Hx as (s & e & ->).
      unfold get_stock_info.
      pose proof (make_request_response_shape s e "GET"
                    ("/api/stock/" +:+ k +:+ "/info") None VNone None false)
        as (H1 & H2 & _).
      split; assumption.
    + rewrite lookup_insert_ne in Hk by exact Hne. eauto.
Qed.

(** C4, as stated, fails on the code: a 200 response whose body is the
    JSON literal [null] decodes to [None], and [_make_request] returns
    [success=True] with no payload and no error type; the invariant
    ``success iff payload present and error kind absent'' is false of
    that response. *)
Lemma null_body_success_without_payload :
  let e := mkEnv 100 5 0 101 (inr (mkHttp 200 (inr VNone) (inr "null"))) in
  let r := fst (fst (_make_request (init (mkConfig 10 300)) e "GET"
                       "/api/market/overview" None VNone None false)) in
  success r = true /\ data r = VNone /\ error_type r = None
  /\ ~ (success r = true <-> data r <> VNone /\ error_type r = None).
Proof.
  intros e r. assert (H : success r = true /\ data r = VNone
                          /\ error_type r = None) by (vm_compute; auto).
  destruct H as (H1 & H2 & H3). repeat split; try assumption.
  intros [Hc _]. destruct (Hc H1) as [Hd _]. exact (Hd H2).
Qed.

(** C4, amended.  Every response returned by [_make_request], and every
    response collected by [get_multiple_stock_data] from tasks that ran
    [get_stock_info] or raised, has [success] true exactly when no error
    type is set, and carries no payload when [success] is false; a
    response of [_make_request] with [success] true has a payload unless
    it is the uncached answer to a 200 response whose body decoded to
    [None]. *)
Theorem api_result_shape :
  (forall s e method endpoint params body cache_ttl bypass,
     let r := fst (fst (_make_request s e method endpoint params body
                                      cache_ttl bypass)) in
     (success r = true <-> error_type r = None)
     /\ (success r = false -> data r = VNone)
     /\ (success r = true -> data r = VNone ->
           cached r = false
           /\ exists h, reply e = inr h /\ status h = 200%Z
                        /\ json h = inr VNone))
  /\ (forall tasks ticker r,
        Forall (fun task => match snd task with
                            | inr x => exists s e,
                                x = fst (fst (get_stock_info s e (fst task)))
                            | inl _ => True
                            end) tasks ->
        get_multiple_stock_data tasks !! ticker = Some r ->
        (success r = true <-> error_type r = None)
        /\ (success r = false -> data r = VNone)).
Proof.
  split.
  - intros. apply make_request_response_shape.
  - intros tasks ticker r Hall Hr. unfold get_multiple_stock_data in Hr.
    eapply collect_shape; [|exact Hall|exact Hr].
    intros k x Hk. rewrite lookup_empty in Hk. discriminate Hk.
Qed.

Lemma api_result_shape_witness :
  let e := mkEnv 100 5 0 101 (inr (mkHttp 401 (inr VNone) (inr "denied"))) in
  let r := fst (fst (get_stock_info (init (mkConfig 10 300)) e "AAPL")) in
  get_multiple_stock_data [("AAPL"%string, inr r)] !! "AAPL" = Some r
  /\ (success r = true <-> error_type r = None)
  /\ (success r = false -> data r = VNone).
Proof.
  intros e r.
  assert (Hl : get_multiple_stock_data [("AAPL"%string, inr r)] !! "AAPL"
               = Some r) by (vm_compute; reflexivity).
  split; [exact Hl|].
  destruct api_result_shape as [_ H].
  apply (H [("AAPL"%string, inr r)] "AAPL"%string r); [|exact Hl].
  constructor; [|constructor]. cbn [snd fst].
  exists (init (mkConfig 10 300)), e. reflexivity.
Defined.

Lemma miss_events s e method endpoint params body cache_ttl bypass :
  missed s e method endpoint params bypass ->
  let r := _make_request s e method endpoint params body cache_ttl bypass in
  cached (fst (fst r)) = false
  /\ snd r = [Acquire (snd (RateLimiter.acquire (rate_limiter s) (mono e) (lag e)));
              Dispatch method endpoint params body].
Proof.
  intros Hm r. subst r. rewrite make_request_miss by exact Hm.
  destruct (reply e) as [ex|h].
  - split; [apply handle_exception_shape | reflexivity].
  - destruct (_process_response h _) as [ex|rd] eqn:Hp.
    + split; [apply handle_exception_shape | reflexivity].
    + split; [|reflexivity]. by apply process_response_shape in Hp as (Hc & _).
Qed.

(** A key whose entry is missing or falsy is looked up in vain. *)
Lemma falsy_entry_misses (st : CacheManager.store) now key :
  (forall expires v, st !! key = Some (expires, v) -> truthy v = false) ->
  truthy (fst (CacheManager.get st now key)) = false.
Proof.
  intros H. unfold CacheManager.get.
  destruct (st !! key) as [[expires v]|] eqn:Hk; [|reflexivity].
  destruct (Qlt_le_dec expires now); [reflexivity|]. cbn [fst]. eauto.
Qed.

(** C10.  When a GET with [bypass_cache=False] succeeds with a falsy
    payload, nothing is written to the cache (the store is the one the
    lookup left); a falsy value held by the cache counts as a miss; and
    so the same GET issued again, at any later moment, acquires the rate
    limiter and is dispatched again, and its response is not marked
    [cached]. *)
Theorem falsy_payload_never_cached (s : t) (e1 e2 : env)
    (method endpoint : string) (params : params_t) (body : value)
    (cache_ttl : option Z) :
  is_get method = true ->
  let key := _generate_cache_key endpoint params in
  let r1 := _make_request s e1 method endpoint params body cache_ttl false in
  success (fst (fst r1)) = true ->
  truthy (data (fst (fst r1))) = false ->
  let s1 := snd (fst r1) in
  let r2 := _make_request s1 e2 method endpoint params body cache_ttl false in
  cache_manager s1 = snd (CacheManager.get (cache_manager s) (now e1) key)
  /\ (forall (s' : t) (e' : env) expires v,
        cache_manager s' !! key = Some (expires, v) -> truthy v = false ->
        let r' := _make_request s' e' method endpoint params body cache_ttl
                                false in
        cached (fst (fst r')) = false
        /\ exists slept,
             snd r' = [Acquire slept; Dispatch method endpoint params body])
  /\ cached (fst (fst r2)) = false
  /\ exists slept, snd r2 = [Acquire slept; Dispatch method endpoint params body].
Proof.
  intros Hg key r1 Hs Hf s1 r2.
  assert (Hl : is_get method && negb false = true) by (rewrite Hg; reflexivity).
  assert (Hfalsy : forall (s' : t) (e' : env),
             (forall expires v, cache_manager s' !! key = Some (expires, v) ->
                truthy v = false) ->
             missed s' e' method endpoint params false).
  { intros s' e' H. right. by apply falsy_entry_misses. }
  assert (Hm1 : missed s e1 method endpoint params false).
  { destruct (hit_or_miss s e1 method endpoint params false) as [[_ Ht]|Hm];
      [|exact Hm].
    exfalso. subst r1. rewrite make_request_hit in Hf by assumption.
    cbn [fst data] in Hf. congruence. }
  assert (Hst : cache_manager s1
                = snd (CacheManager.get (cache_manager s) (now e1) key)).
  { subst s1 r1. rewrite make_request_miss in * by exact Hm1.
    unfold after_lookup in *. rewrite Hl in *.
    destruct (reply e1) as [ex|h]; [reflexivity|].
    destruct (_process_response h _) as [ex|rd]; [reflexivity|].
    cbn [fst snd cache_manager] in *. rewrite Hf.
    rewrite !andb_false_r. reflexivity. }
  split; [exact Hst|]. split.
  - intros s' e' expires v Hk Hv r'.
    assert (Hm : missed s' e' method endpoint params false).
    { apply Hfalsy. intros ex x Hx. fold key in Hk. congruence. }
    pose proof (miss_events s' e' method endpoint params body cache_ttl false Hm)
      as [H1 H2]. split; [exact H1 | eexists; exact H2].
  - assert (Hm2 : missed s1 e2 method endpoint params false).
    { apply Hfalsy. intros expires v Hk. rewrite Hst in Hk.
      destruct Hm1 as [Hm1|Hm1]; [congruence|]. fold key in Hm1.
      unfold CacheManager.get in Hk, Hm1.
      destruct (cache_manager s !! key) as [[ex0 v0]|] eqn:H0.
      - destruct (Qlt_le_dec ex0 (now e1)); cbn [fst snd] in *.
        + rewrite lookup_delete_eq in Hk. discriminate.
        + rewrite H0 in Hk. congruence.
      - cbn [snd] in Hk. rewrite H0 in Hk. discriminate. }
    pose proof (miss_events s1 e2 method endpoint params body cache_ttl false Hm2)
      as [H1 H2]. split; [exact H1 | eexists; exact H2].
Qed.

Lemma falsy_payload_never_cached_witness :
  let e1 := mkEnv 100 5 0 101 (inr (mkHttp 200 (inr (VDict [])) (inr "{}"))) in
  let e2 := mkEnv 102 6 0 103 (inr (mkHttp 200 (inr (VDict [])) (inr "{}"))) in
  let s := init (mkConfig 10 300) in
  let r1 := _make_request s e1 "GET" "/api/x" None VNone None false in
  let r2 := _make_request (snd (fst r1)) e2 "GET" "/api/x" None VNone None false in
  cached (fst (fst r2)) = false
  /\ exists slept, snd r2 = [Acquire slept; Dispatch "GET" "/api/x" None VNone].
Proof.
  intros e1 e2 s r1 r2.
  pose proof (falsy_payload_never_cached s e1 e2 "GET" "/api/x" None VNone None)
    as H.
  destruct H as (_ & _ & H1 & H2); [reflexivity | reflexivity | reflexivity |].
  split; [exact H1 | exact H2].
Defined.

End ApiProps.

(* ===================================================================== *)
(** * MainController *)
(* ===================================================================== *)

Section ControllerProps.
Import Py ApiService Controller.

Lemma begin_rejected c ticker now h :
  _active_analyses c !! upper ticker = Some h ->
  analyze_ticker_begin c ticker now = (None, c, []).
Proof. intros H. unfold analyze_ticker_begin. rewrite H. reflexivity. Qed.

Lemma begin_accepted c ticker now :
  _active_analyses c !! upper ticker = None ->
  analyze_ticker_begin c ticker now
  = (Some (upper ticker),
     mkController
       (<[upper ticker := mkTask (next_task c) false]> (_active_analyses c))
       (<[upper ticker := fresh_progress now]> (_analysis_progress c))
       (S (next_task c)),
     [ProgressUpdated (upper ticker) (fresh_progress now)]).
Proof. intros H. unfold analyze_ticker_begin. rewrite H. reflexivity. Qed.

Lemma analyze_ticker_rejected w c ticker now fr h :
  _active_analyses c !! upper ticker = Some h ->
  analyze_ticker w c ticker now fr = (false, c, []).
Proof.
  intros H. unfold analyze_ticker. rewrite (begin_rejected _ _ _ _ H).
  reflexivity.
Qed.

(** A call that is let in, run to its end. *)
Lemma analyze_ticker_started w c ticker now fr :
  _active_analyses c !! upper ticker = None ->
  analyze_ticker w c ticker now fr
  = (let key := upper ticker in
     let '(o, p1, evs2) := pipeline w key fr (fresh_progress now) in
     let '(b, p2, evs3) := conclude key o p1 in
     (b,
      mkController (_active_analyses c) (<[key := p2]> (_analysis_progress c))
                   (S (next_task c)),
      ProgressUpdated key (fresh_progress now) :: evs2 ++ evs3)).
Proof.
  intros H. unfold analyze_ticker. rewrite (begin_accepted _ _ _ H).
  unfold _perform_ticker_analysis. cbn [_analysis_progress].
  rewrite lookup_insert_eq.
  destruct (pipeline w (upper ticker) fr (fresh_progress now))
    as [[o p1] evs2].
  unfold analyze_ticker_end, set_progress. cbn [_analysis_progress].
  rewrite lookup_insert_eq.
  destruct (conclude (upper ticker) o p1) as [[b p2] evs3].
  unfold cleanup, set_progress.
  cbn [_active_analyses _analysis_progress next_task].
  rewrite !insert_insert_eq.
  rewrite delete_insert_eq, delete_id by exact H.
  reflexivity.
Qed.



Lemma steps_done_cons ev evs :
  steps_done (ev :: evs)
  = ((if is_work ev then 1 else 0) + steps_done evs)%Z.
Proof.
  unfold steps_done. rewrite filter_cons.
  destruct (is_work ev) eqn:H.
  - rewrite decide_True by reflexivity. cbn [length]. lia.
  - rewrite decide_False by discriminate. lia.
Qed.

(** After a prefix [pre] the checker has counted the work events of
    [pre] and remembers the last record of [pre]. *)
Lemma check_trace_sound pre : forall done prev k p post,
  check_trace done prev (pre ++ ProgressUpdated k p :: post) = true ->
  record_ok (done + steps_done pre) (last_completed prev pre) p = true.
Proof.
  induction pre as [|ev pre IH]; intros done prev k p post H.
  - cbn [app check_trace] in H. apply andb_true_iff in H as [H _].
    unfold steps_done. cbn. rewrite Z.add_0_r. exact H.
  - rewrite steps_done_cons. destruct ev as [k' p'| | | |];
      cbn [app check_trace is_work last_completed] in *.
    + apply andb_true_iff in H as [_ H]. apply IH in H.
      rewrite Z.add_0_l. exact H.
    + apply IH in H. rewrite Z.add_assoc. exact H.
    + apply IH in H. rewrite Z.add_0_l. exact H.
    + apply IH in H. rewrite Z.add_0_l. exact H.
    + apply IH in H. rewrite Z.add_assoc. exact H.
Qed.

Lemma analyze_ticker_trace_checked w c ticker now fr :
  check_trace 0 0 (snd (analyze_ticker w c ticker now fr)) = true.
Proof.
  destruct (_active_analyses c !! upper ticker) as [h|] eqn:Hk.
  - rewrite (analyze_ticker_rejected _ _ _ _ _ _ Hk). reflexivity.
  - rewrite analyze_ticker_started by exact Hk.
    destruct w as [o1 o2 o3 o4 f].
    unfold_pipeline.
    cbn [w_stock_info w_earnings w_options_flow w_insider_trades w_analysis].
    destruct o1 as [si|ex|]; [|vm_compute; reflexivity..].
    destruct (success si) eqn:Hs; cbn [negb]; [|vm_compute; reflexivity].
    destruct o2 as [r2|ex|]; [|vm_compute; reflexivity..].
    destruct o3 as [r3|ex|]; [|vm_compute; reflexivity..].
    destruct o4 as [r4|ex|]; [|vm_compute; reflexivity..].
    destruct (f _ _ _ _) as [res|ex|]; vm_compute; reflexivity.
Qed.

(** C9, as stated, fails on the code: in a run on ["AAPL"] the record
    emitted when step 1 starts reports [completed_steps = 1] of 6 with
    [progress_percent = 16.7], which is not [1/6*100], and it is emitted
    before any step has done its work. *)
Lemma progress_percent_not_exact :
  let ok := mkResponse true (VDict [("ticker", VStr "AAPL")]) None None
                       (Some 200%Z) false (Some "r") in
  let w := mkWorld (Ret ok) (Ret ok) (Ret ok) (Ret ok)
                   (fun _ _ _ _ => Ret (VStr "done")) in
  exists pre p post,
    snd (analyze_ticker w init "AAPL" 0 false)
    = pre ++ ProgressUpdated "AAPL" p :: post
    /\ completed_steps p = 1%Z /\ total_steps p = 6%Z
    /\ ~ (progress_percent p == percent_of p)%Q
    /\ steps_done pre = 0%Z.
Proof.
  intros ok w.
  exists [ProgressUpdated "AAPL" (fresh_progress 0)].
  eexists. eexists. split; [vm_compute; reflexivity|].
  split; [reflexivity|]. split; [reflexivity|]. split; [|reflexivity].
  intros H. vm_compute in H. discriminate H.
Qed.

(** C9, amended.  Every record emitted during a run has
    [progress_percent] equal to [completed_steps / total_steps * 100]
    rounded to one decimal place; [completed_steps] lies between 0 and
    [total_steps = 6] and is the value of the previous record or that
    value plus one; and a record that reports [completed_steps = i] is
    emitted when at least [i - 1] steps have done their work (the count
    is raised when a step starts). *)
Theorem progress_records_consistent (w : world) (c : t) (ticker : string)
    (now : Q) (fr : bool) (pre post : list event) (k : string)
    (p : AnalysisProgress) :
  snd (analyze_ticker w c ticker now fr) = pre ++ ProgressUpdated k p :: post ->
  (progress_percent p == round1 (percent_of p))%Q
  /\ (completed_steps p - 1 <= steps_done pre)%Z
  /\ (last_completed 0 pre <= completed_steps p <= last_completed 0 pre + 1)%Z
  /\ (0 <= completed_steps p <= total_steps p)%Z.
Proof.
  intros H. pose proof (analyze_ticker_trace_checked w c ticker now fr) as Hc.
  rewrite H in Hc. apply check_trace_sound in Hc.
  unfold record_ok in Hc. rewrite !andb_true_iff in Hc.
  destruct Hc as (((((Hq & Hd) & Hlo) & Hhi) & Hnn) & Htot).
  apply Qeq_bool_iff in Hq.
  apply Z.leb_le in Hd, Hlo, Hhi, Hnn, Htot. rewrite Z.add_0_l in Hd.
  repeat split; assumption.
Qed.

Lemma progress_records_consistent_witness :
  let ok := mkResponse true (VDict [("ticker", VStr "AAPL")]) None None
                       (Some 200%Z) false (Some "r") in
  let w := mkWorld (Ret ok) (Ret ok) (Cancel) (Ret ok)
                   (fun _ _ _ _ => Ret (VStr "done")) in
  let p := mkProgress RUNNING "Fetching options flow" 50 6 3 None (Some 0%Q)
                      None in
  let pre := [ProgressUpdated "AAPL" (fresh_progress 0);
              ProgressUpdated "AAPL"
                (mkProgress RUNNING "Fetching stock information"
                            (167 # 10) 6 1 None (Some 0%Q) None);
              Returned (GetStockInfo "AAPL");
              ProgressUpdated "AAPL"
                (mkProgress RUNNING "Fetching earnings data"
                            (333 # 10) 6 2 None (Some 0%Q) None);
              Returned GetEarningsCalendar] in
  let post := [ProgressUpdated "AAPL"
                 (mkProgress CANCELLED "Analysis cancelled" 50 6 3 None
                             (Some 0%Q) None)] in
  snd (analyze_ticker w init "aapl" 0 false)
  = pre ++ ProgressUpdated "AAPL" p :: post
  /\ (progress_percent p == round1 (percent_of p))%Q
  /\ (completed_steps p - 1 <= steps_done pre)%Z.
Proof.
  intros ok w p pre post.
  assert (E : snd (analyze_ticker w init "aapl" 0 false)
              = pre ++ ProgressUpdated "AAPL" p :: post)
    by (vm_compute; reflexivity).
  split; [exact E|].
  destruct (progress_records_consistent w init "aapl" 0 false pre post
              "AAPL" p E) as (H1 & H2 & _).
  split; [exact H1 | exact H2].
Defined.

(** *** The registry of active runs *)

Lemma begin_Some_inv c ticker now key c' evs :
  analyze_ticker_begin c ticker now = (Some key, c', evs) ->
  key = upper ticker
  /\ _active_analyses c !! key = None
  /\ _active_analyses c'
     = <[key := mkTask (next_task c) false]> (_active_analyses c).
Proof.
  unfold analyze_ticker_begin.
  destruct (_active_analyses c !! upper ticker) eqn:Hk; [discriminate|].
  intros [= <- <- _]. auto.
Qed.

Lemma begin_None_inv c ticker now c' evs :
  analyze_ticker_begin c ticker now = (None, c', evs) ->
  c' = c /\ evs = [] /\ is_Some (_active_analyses c !! upper ticker).
Proof.
  unfold analyze_ticker_begin.
  destruct (_active_analyses c !! upper ticker) eqn:Hk; [|discriminate].
  intros [= <- <-]. eauto.
Qed.

Lemma perform_active w key fr c :
  _active_analyses (snd (fst (_perform_ticker_analysis w key fr c)))
  = _active_analyses c.
Proof.
  unfold _perform_ticker_analysis.
  destruct (_analysis_progress c !! key); [|reflexivity].
  destruct (pipeline w key fr _) as [[o p'] evs]. reflexivity.
Qed.

Lemma end_active c key o :
  _active_analyses (snd (fst (analyze_ticker_end c key o)))
  = delete key (_active_analyses c).
Proof.
  unfold analyze_ticker_end.
  destruct (_analysis_progress c !! key); [|reflexivity].
  destruct (conclude key o _) as [[b p'] evs]. reflexivity.
Qed.

Lemma cancel_active c ticker k :
  is_Some (_active_analyses (snd (cancel_analysis c ticker)) !! k)
  <-> is_Some (_active_analyses c !! k).
Proof.
  unfold cancel_analysis.
  destruct (_active_analyses c !! upper ticker) as [h|] eqn:Hk; [|reflexivity].
  cbn [snd _active_analyses].
  destruct (decide (upper ticker = k)) as [<-|Hne].
  - rewrite lookup_insert_eq, Hk. split; eauto.
  - rewrite lookup_insert_ne by exact Hne. reflexivity.
Qed.

(** In every reachable configuration the live calls have pairwise
    distinct keys, and the registry holds exactly their keys. *)
Lemma reachable_registry x :
  Controller.reachable x ->
  NoDup (snd x)
  /\ forall k, k ∈ snd x <-> is_Some (_active_analyses (fst x) !! k).
Proof.
  induction 1 as [|x y Hx [IHn IHk] Hstep].
  - split; [constructor|]. intros k. cbn. rewrite lookup_empty.
    split; [intros H; by apply not_elem_of_nil in H | intros [? H]; discriminate H].
  - destruct Hstep as [c live ticker now key c' evs Hb
                      |c live ticker now c' evs Hb
                      |c live w key fr o c' evs Hin Hp
                      |c l1 key l2 o b c' evs He
                      |c live ticker b c' Hc]; cbn [fst snd] in *.
    + apply begin_Some_inv in Hb as (-> & Hfree & Hreg).
      assert (Hnot : upper ticker ∉ live).
      { intros Hin. apply IHk in Hin as [h Hh]. congruence. }
      split; [by constructor|].
      intros k. rewrite Hreg, elem_of_cons.
      destruct (decide (upper ticker = k)) as [<-|Hne].
      * rewrite lookup_insert_eq. split; eauto.
      * rewrite lookup_insert_ne by exact Hne. rewrite <- IHk.
        split; [intros [->|H]; [done | exact H] | auto].
    + apply begin_None_inv in Hb as (-> & _ & _). auto.
    + pose proof (perform_active w key fr c) as Ha. rewrite Hp in Ha.
      cbn [fst snd] in Ha. rewrite Ha. auto.
    + pose proof (end_active c key o) as Ha. rewrite He in Ha.
      cbn [fst snd] in Ha.
      apply NoDup_app in IHn as (Hn1 & Hn12 & Hn2).
      apply NoDup_cons in Hn2 as [Hk2 Hn2].
      assert (Hk1 : key ∉ l1).
      { intros Hin. apply (Hn12 _ Hin). left. }
      split.
      * apply NoDup_app. split; [exact Hn1|]. split; [|exact Hn2].
        intros z Hz1 Hz2. apply (Hn12 _ Hz1). by right.
      * intros k. rewrite Ha.
        destruct (decide (key = k)) as [<-|Hne].
        -- rewrite lookup_delete_eq. split.
           ++ rewrite elem_of_app. intros [?|?]; contradiction.
           ++ intros [? H]; discriminate H.
        -- rewrite lookup_delete_ne by exact Hne. rewrite <- IHk.
           rewrite !elem_of_app, elem_of_cons. split; [tauto|].
           intros [?|[->|?]]; [tauto | done | tauto].
    + split; [exact IHn|]. intros k. rewrite IHk.
      pose proof (cancel_active c ticker k) as Ha. rewrite Hc in Ha.
      cbn [snd] in Ha. symmetry. exact Ha.
Qed.

(** C6.  [analyze_ticker] on a key that is in the registry returns
    [False] and changes and emits nothing; on a key that is not, it
    registers a handle that is not cancelled and sets the status of the
    key to [RUNNING]; whatever the outcome of the task (a result, an
    exception, a cancellation), the key is out of the registry when the
    call ends; and in every reachable configuration at most one call per
    key is between its registration and its clean-up, the registry
    holding exactly the keys of those calls. *)
Theorem one_live_run_per_key :
  (forall w c ticker now fr h,
     _active_analyses c !! upper ticker = Some h ->
     analyze_ticker_begin c ticker now = (None, c, [])
     /\ analyze_ticker w c ticker now fr = (false, c, []))
  /\ (forall c ticker now,
        _active_analyses c !! upper ticker = None ->
        exists c',
          analyze_ticker_begin c ticker now
          = (Some (upper ticker), c',
             [ProgressUpdated (upper ticker) (fresh_progress now)])
          /\ _active_analyses c' !! upper ticker
             = Some (mkTask (next_task c) false)
          /\ status <$> _analysis_progress c' !! upper ticker = Some RUNNING)
  /\ (forall c key o,
        _active_analyses (snd (fst (analyze_ticker_end c key o))) !! key = None)
  /\ (forall w c ticker now fr,
        _active_analyses c !! upper ticker = None ->
        _active_analyses (snd (fst (analyze_ticker w c ticker now fr)))
          !! upper ticker = None)
  /\ (forall c live,
        Controller.reachable (c, live) ->
        NoDup live
        /\ forall k, k ∈ live <-> is_Some (_active_analyses c !! k)).
Proof.
  split; [|split; [|split; [|split]]].
  - intros w c ticker now fr h H. split.
    + by eapply begin_rejected.
    + by eapply analyze_ticker_rejected.
  - intros c ticker now H. eexists. split; [by apply begin_accepted|].
    cbn [_active_analyses _analysis_progress].
    rewrite !lookup_insert_eq. split; reflexivity.
  - intros c key o. rewrite end_active. apply lookup_delete_eq.
  - intros w c ticker now fr H. rewrite analyze_ticker_started by exact H.
    cbv zeta.
    destruct (pipeline w (upper ticker) fr (fresh_progress now))
      as [[o p1] evs2].
    destruct (conclude (upper ticker) o p1) as [[b p2] evs3]. exact H.
  - intros c live H. exact (reachable_registry _ H).
Qed.

Lemma one_live_run_per_key_witness :
  let w := mkWorld (Raise TimeoutError) Cancel Cancel Cancel
                   (fun _ _ _ _ => Cancel) in
  let c1 := snd (fst (analyze_ticker_begin init "aapl" 0)) in
  analyze_ticker w c1 "AAPL" 1 false = (false, c1, [])
  /\ _active_analyses (snd (fst (analyze_ticker_end c1 "AAPL" Cancel)))
       !! "AAPL" = None.
Proof.
  intros w c1.
  destruct one_live_run_per_key as (H1 & _ & H3 & _).
  split.
  - apply (H1 w c1 "AAPL"%string 1%Q false (mkTask 0 false)).
    vm_compute. reflexivity.
  - apply H3.
Defined.

End ControllerProps.

(* ===================================================================== *)
(** * Batches *)
(* ===================================================================== *)

Section BatchProps.
Import Py ApiService Controller.

Variable w : string -> world.
Variable c0 : t.






(** *** Any schedule *)

Variable tickers : list string.
Hypothesis distinct_keys : NoDup (upper <$> tickers).














End BatchProps.

